(** * Simulacion_Modificada_Markov_RACH: absorbing Markov chain and Monte Carlo

    A shallow embedding of the code cell of the notebook
    [Simulacion_Modificada_Markov_RACH.ipynb].

    Conventions of the embedding.
    - Python floats are modelled twice.  The analytic computation is given
      in exact rationals ([Q], compared with [==]; module [Np],
      [analisis]), where the statements are statements of exact arithmetic,
      and in IEEE binary64 ([PrimFloat.float]; module [Np64],
      [analisis64]), where rounding, overflow and NaN are those of the
      doubles the code computes with.  The draws and [prob_exito] of the
      simulation are only compared, which is exact on doubles, so they are
      rationals.
    - Python integers are unbounded and are modelled by [Z].
    - numpy arrays are nested lists, as the literals of the notebook are.
    - Python exceptions are an error type; a computation that can raise
      returns [PyError + A].
    - The module-level variables that the simulation mutates ([rng],
      [total_intentos], [exitos], [fracasos]) form a record [Globals] that
      is passed explicitly.
    - The constants [p_exito], [num_pruebas] and the seed of the generator
      are parameters of the definitions; the number of attempts is the
      literal 3 of the notebook. *)

From Stdlib Require Import ZArith QArith Qabs Qfield Lqa Lia List Bool.
From Stdlib Require PrimFloat.
Import ListNotations.

#[local] Set Warnings "-inexact-float".

Open Scope Q_scope.

(** ** Exceptions *)

Inductive PyError : Type :=
| LinAlgError        (* numpy.linalg.LinAlgError: Singular matrix *)
| ZeroDivisionError  (* int / int with a zero divisor *)
| IndexError.        (* index out of range *)

Definition Py (A : Type) : Type := (PyError + A)%type.

Definition ret {A} (x : A) : Py A := inr x.
Definition raise {A} (e : PyError) : Py A := inl e.
Definition bind {A B} (c : Py A) (k : A -> Py B) : Py B :=
  match c with
  | inl e => inl e
  | inr x => k x
  end.

Notation "x <- c ;; k" := (bind c (fun x => k))
  (at level 61, c at next level, right associativity).

(** ** numpy arrays of floats *)

Module Np.

Definition vector := list Q.
Definition matrix := list (list Q).

(** [u @ v] for two one-dimensional arrays. *)
Fixpoint dot (u v : vector) : Q :=
  match u, v with
  | x :: u', y :: v' => x * y + dot u' v'
  | _, _ => 0
  end.

Definition col (j : nat) (A : matrix) : vector :=
  map (fun r => nth j r 0) A.

Definition ncols (A : matrix) : nat := length (hd [] A).

(** [A @ B] for two two-dimensional arrays. *)
Definition matmul (A B : matrix) : matrix :=
  map (fun r => map (fun j => dot r (col j B)) (seq 0 (ncols B))) A.

(** [np.identity(n)] *)
Definition identity (n : nat) : matrix :=
  map (fun i => map (fun j => if Nat.eqb i j then 1 else 0) (seq 0 n))
      (seq 0 n).

(** [np.ones(n)] *)
Definition ones (n : nat) : vector := repeat 1 n.

Fixpoint zipWith {A B C} (f : A -> B -> C) (l : list A) (m : list B)
  : list C :=
  match l, m with
  | x :: l', y :: m' => f x y :: zipWith f l' m'
  | _, _ => []
  end.

(** [A - B], elementwise *)
Definition sub (A B : matrix) : matrix := zipWith (zipWith Qminus) A B.

(** [A[i]] and [A[i, j]] *)
Definition getrow (A : matrix) (i : nat) : Py vector :=
  match nth_error A i with
  | Some r => ret r
  | None => raise IndexError
  end.

Definition getitem (A : matrix) (i j : nat) : Py Q :=
  r <- getrow A i ;;
  match nth_error r j with
  | Some x => ret x
  | None => raise IndexError
  end.

(** *** [np.linalg.inv], in exact arithmetic

    The library routine is not part of the repository.  This is its
    counterpart in exact arithmetic: the inverse of a square matrix,
    computed as adjugate over determinant, and [LinAlgError] when the
    determinant is zero.  The routine itself factorises in doubles and
    raises only on a pivot that is exactly zero after rounding; that
    behaviour is the one of [Np64.inv] below. *)

Definition remove_nth {A} (j : nat) (l : list A) : list A :=
  firstn j l ++ skipn (S j) l.

Definition sign (k : nat) : Q := if Nat.even k then 1 else -(1).

Fixpoint sumQ (l : list Q) : Q :=
  match l with
  | [] => 0
  | x :: l' => x + sumQ l'
  end.

(** Laplace expansion along the first row; [n] is the number of rows. *)
Fixpoint det_rec (n : nat) (A : matrix) : Q :=
  match n, A with
  | S n', r :: rest =>
      sumQ (map (fun j => sign j * nth j r 0
                          * det_rec n' (map (remove_nth j) rest))
                (seq 0 (length r)))
  | _, _ => 1
  end.

Definition det (A : matrix) : Q := det_rec (length A) A.

Definition minor (i j : nat) (A : matrix) : matrix :=
  map (remove_nth j) (remove_nth i A).

Definition cofactor (i j : nat) (A : matrix) : Q :=
  sign (i + j) * det (minor i j A).

Definition adjugate (A : matrix) : matrix :=
  let n := length A in
  map (fun i => map (fun j => cofactor j i A) (seq 0 n)) (seq 0 n).

Definition inv (A : matrix) : Py matrix :=
  let d := det A in
  if Qeq_bool d 0 then raise LinAlgError
  else ret (map (map (fun c => c / d)) (adjugate A)).

(** Entrywise equality of arrays, up to the equality of rationals. *)
Definition veq (u v : vector) : Prop := Forall2 Qeq u v.
Definition meq (A B : matrix) : Prop := Forall2 veq A B.

(** A matrix of [n] rows of [n] entries. *)
Definition square (n : nat) (A : matrix) : Prop :=
  length A = n /\ Forall (fun r => length r = n) A.

Definition entry (A : matrix) (i j : nat) : Q := nth j (nth i A []) 0.


(** No right inverse among the [n] by [n] matrices. *)
Definition singular (n : nat) (A : matrix) : Prop :=
  forall B, square n B -> ~ meq (matmul A B) (identity n).

End Np.

(** ** Parameters of the process and analytic computation, in exact
    arithmetic *)

Section Analisis.

Variable p_exito : Q.

Definition p_fallo : Q := 1 - p_exito.

(** Transitions among the transient states S0, S1, S2. *)
Definition Qmat : Np.matrix :=
  [ [0; p_fallo; 0];
    [0; 0; p_fallo];
    [0; 0; 0] ].

(** Transitions from the transient states to S3 (success), S4 (failure). *)
Definition R : Np.matrix :=
  [ [p_exito; 0];
    [p_exito; 0];
    [p_exito; p_fallo] ].

Definition I3 : Np.matrix := Np.identity 3.

(** The fundamental matrix [N = np.linalg.inv(I - Q)]. *)
Definition N : Py Np.matrix := Np.inv (Np.sub I3 Qmat).

Record Teorico : Type := mkTeorico {
  prob_exito_teorica : Q;
  prob_fallo_teorica : Q;
  intentos_teoricos : Q
}.

Definition analisis : Py Teorico :=
  N <- N ;;
  let absorcion := Np.matmul N R in
  pe <- Np.getitem absorcion 0 0 ;;
  pf <- Np.getitem absorcion 0 1 ;;
  N0 <- Np.getrow N 0 ;;
  ret (mkTeorico pe pf (Np.dot N0 (Np.ones 3))).

End Analisis.

Import PrimFloat.

(** ** numpy arrays of doubles

    The same array operations on IEEE binary64 values.  Sums of products
    are accumulated from 0.0 in index order. *)

Module Np64.

Definition vector := list float.
Definition matrix := list (list float).

(** [u @ v] for two one-dimensional arrays. *)
Fixpoint dot_acc (acc : float) (u v : vector) : float :=
  match u, v with
  | x :: u', y :: v' => dot_acc (acc + x * y)%float u' v'
  | _, _ => acc
  end.

Definition dot (u v : vector) : float := dot_acc 0%float u v.

Definition col (j : nat) (A : matrix) : vector :=
  map (fun r => nth j r 0%float) A.

Definition ncols (A : matrix) : nat := length (hd [] A).

Definition matmul (A B : matrix) : matrix :=
  map (fun r => map (fun j => dot r (col j B)) (seq 0 (ncols B))) A.

Definition identity (n : nat) : matrix :=
  map (fun i => map (fun j => if Nat.eqb i j then 1%float else 0%float)
                    (seq 0 n))
      (seq 0 n).

Definition ones (n : nat) : vector := repeat 1%float n.

Fixpoint zipWith {A B C} (f : A -> B -> C) (l : list A) (m : list B)
  : list C :=
  match l, m with
  | x :: l', y :: m' => f x y :: zipWith f l' m'
  | _, _ => []
  end.

Definition sub (A B : matrix) : matrix := zipWith (zipWith PrimFloat.sub) A B.

Definition getrow (A : matrix) (i : nat) : Py vector :=
  match nth_error A i with
  | Some r => ret r
  | None => raise IndexError
  end.

Definition getitem (A : matrix) (i j : nat) : Py float :=
  r <- getrow A i ;;
  match nth_error r j with
  | Some x => ret x
  | None => raise IndexError
  end.

(** *** [np.linalg.inv], in doubles

    The library routine is not part of the repository.  numpy solves
    [A X = I] with LAPACK's [dgesv]; this is the reference algorithm on
    doubles: an LU factorisation with partial pivoting ([getrf]: the pivot
    of a column is its first entry of largest absolute value, the
    multipliers are scaled by the reciprocal of the pivot when the pivot
    is at least the safe minimum), [LinAlgError] when a pivot is exactly
    zero, then the substitutions on the rows of the identity, which are
    carried along the elimination, and the back substitution
    ([getrs_upper]). *)

(** The smallest normal double, LAPACK's safe minimum. *)
Definition sfmin : float := 0x1p-1022%float.

Fixpoint argmax_abs (best : nat) (bestv : float) (i : nat) (l : vector)
  : nat :=
  match l with
  | [] => best
  | x :: l' =>
      if (bestv <? abs x)%float then argmax_abs i (abs x) (S i) l'
      else argmax_abs best bestv (S i) l'
  end.

(** Index of the first entry of largest absolute value. *)
Definition idamax (l : vector) : nat :=
  match l with
  | [] => O
  | x :: l' => argmax_abs O (abs x) 1 l'
  end.

(** A row of [A] with the same row of the right-hand side. *)
Definition row : Type := (vector * vector)%type.

(** Interchanges the first row and row [m]. *)
Definition swap_first (m : nat) (rows : list row) : list row :=
  match rows, m with
  | r0 :: rest, S m' =>
      match nth_error rest m' with
      | Some rm => rm :: firstn m' rest ++ r0 :: skipn (S m') rest
      | None => rows
      end
  | _, _ => rows
  end.

Definition multiplier (a piv : float) : float :=
  if (sfmin <=? abs piv)%float then (a * (1 / piv))%float else (a / piv)%float.

(** [a[j] -= l * pa[j]] right of column [k]; the multiplier is stored in
    column [k]. *)
Fixpoint update_a (l : float) (k j : nat) (pa a : vector) : vector :=
  match pa, a with
  | x :: pa', y :: a' =>
      (if (k <? j)%nat then (y - l * x)%float
       else if (j =? k)%nat then l else y)
      :: update_a l k (S j) pa' a'
  | _, _ => a
  end.

(** [b[j] -= pb[j] * l], skipped where [pb[j]] is zero. *)
Definition update_b (l : float) (pb b : vector) : vector :=
  zipWith (fun x y => if (x =? 0)%float then y else (y - x * l)%float) pb b.

Fixpoint getrf (fuel k : nat) (rows : list row) : Py (list row) :=
  match fuel with
  | O => ret []
  | S fuel' =>
      match swap_first (idamax (map (fun r => nth k (fst r) 0%float) rows))
                       rows with
      | [] => ret []
      | pr :: rest =>
          let piv := nth k (fst pr) 0%float in
          if (piv =? 0)%float then raise LinAlgError
          else
            let elim r :=
              let l := multiplier (nth k (fst r) 0%float) piv in
              (update_a l k 0 (fst pr) (fst r), update_b l (snd pr) (snd r)) in
            us <- getrf fuel' (S k) (map elim rest) ;;
            ret (pr :: us)
      end
  end.

(** A solved row of [X] with the positions where it was non-zero before
    the division by the pivot. *)
Definition solved : Type := (vector * list bool)%type.

Fixpoint zip3 {A B C D} (f : A -> B -> C -> D)
  (l : list A) (m : list B) (n : list C) : list D :=
  match l, m, n with
  | x :: l', y :: m', z :: n' => f x y z :: zip3 f l' m' n'
  | _, _, _ => []
  end.

Definition back_update (uik : float) (x : solved) (b : vector) : vector :=
  zip3 (fun xj (mj : bool) bj => if mj then (bj - xj * uik)%float else bj)
       (fst x) (snd x) b.

Fixpoint back_updates (i : nat) (u : vector) (xs : list solved) (b : vector)
  : vector :=
  match xs with
  | [] => b
  | x :: xs' => back_update (nth i u 0%float) x (back_updates (S i) u xs' b)
  end.

(** Back substitution with the upper factor, from the last row up. *)
Fixpoint getrs_upper (k : nat) (rows : list row) : list solved :=
  match rows with
  | [] => []
  | (u, b) :: rest =>
      let xs := getrs_upper (S k) rest in
      let b' := back_updates (S k) u xs b in
      let ukk := nth k u 0%float in
      (map (fun bj => if (bj =? 0)%float then bj else (bj / ukk)%float) b',
       map (fun bj => negb (bj =? 0)%float) b') :: xs
  end.

Definition inv (A : matrix) : Py matrix :=
  let n := length A in
  rows <- getrf n 0 (combine A (identity n)) ;;
  ret (map fst (getrs_upper 0 rows)).

End Np64.

(** ** Parameters of the process and analytic computation, in doubles *)

Section Analisis64.

Variable p_exito : PrimFloat.float.

Definition p_fallo64 : PrimFloat.float := (1 - p_exito)%float.

Definition Qmat64 : Np64.matrix :=
  [ [0; p_fallo64; 0];
    [0; 0; p_fallo64];
    [0; 0; 0] ]%float.

Definition R64 : Np64.matrix :=
  [ [p_exito; 0];
    [p_exito; 0];
    [p_exito; p_fallo64] ]%float.

Definition I64 : Np64.matrix := Np64.identity 3.

Definition N64 : Py Np64.matrix := Np64.inv (Np64.sub I64 Qmat64).

Record Teorico64 : Type := mkTeorico64 {
  prob_exito_teorica64 : PrimFloat.float;
  prob_fallo_teorica64 : PrimFloat.float;
  intentos_teoricos64 : PrimFloat.float
}.

Definition analisis64 : Py Teorico64 :=
  N <- N64 ;;
  let absorcion := Np64.matmul N R64 in
  pe <- Np64.getitem absorcion 0 0 ;;
  pf <- Np64.getitem absorcion 0 1 ;;
  N0 <- Np64.getrow N 0 ;;
  ret (mkTeorico64 pe pf (Np64.dot N0 (Np64.ones 3))).

End Analisis64.

(** ** The pseudo-random generator

    [np.random.default_rng(seed)] and [Generator.random] are library code.
    A generator is modelled by its interface: a state created from a seed
    and a draw that returns a float of the interval [0, 1) together with
    the advanced state. *)

Class Generator : Type := {
  gen : Type;
  default_rng : Z -> gen;
  random : gen -> Q * gen;
  random_range : forall g, 0 <= fst (random g) /\ fst (random g) < 1
}.

(** A linear congruential generator, used to run the model on concrete
    inputs (it is not numpy's PCG64). *)
Module Lcg.

Definition modulus : positive := 2147483648.

Definition next (s : Z) : Z := ((1103515245 * s + 12345) mod Z.pos modulus)%Z.

Definition seed_state (seed : Z) : Z := (seed mod Z.pos modulus)%Z.

Definition draw (s : Z) : Q * Z := (next s # modulus, next s).

End Lcg.

(** [x < y] on floats *)
Definition Qltb (x y : Q) : bool := negb (Qle_bool y x).

(** [range(a, b)] *)
Definition range (a b : Z) : list Z :=
  map (fun k => (a + Z.of_nat k)%Z) (seq 0 (Z.to_nat (b - a))).

(** ** Monte Carlo simulation *)

Section Simulacion.

Context {G : Generator}.

(** The module-level variables read and written by the simulation. *)
Record Globals : Type := mkGlobals {
  rng : gen;
  total_intentos : Z;
  exitos : Z;
  fracasos : Z
}.

Definition set_rng (g : gen) (s : Globals) : Globals :=
  mkGlobals g (total_intentos s) (exitos s) (fracasos s).
Definition set_total_intentos (v : Z) (s : Globals) : Globals :=
  mkGlobals (rng s) v (exitos s) (fracasos s).
Definition set_exitos (v : Z) (s : Globals) : Globals :=
  mkGlobals (rng s) (total_intentos s) v (fracasos s).
Definition set_fracasos (v : Z) (s : Globals) : Globals :=
  mkGlobals (rng s) (total_intentos s) (exitos s) v.

(** [rng.random()]: draws from the global generator and advances it. *)
Definition rng_random (s : Globals) : Q * Globals :=
  let (u, g') := random (rng s) in (u, set_rng g' s).

(** The [for i in ...] loop of [intento_usuario] over the remaining
    attempt indices; falling out of the loop is [return 0]. *)
Fixpoint intento_bucle (prob_exito : Q) (indices : list Z) (s : Globals)
  : Z * Globals :=
  match indices with
  | [] => (0%Z, s)
  | i :: resto =>
      let (u, s') := rng_random s in
      if Qltb u prob_exito then (i, s')
      else intento_bucle prob_exito resto s'
  end.

Definition intento_usuario (prob_exito : Q) (s : Globals) : Z * Globals :=
  intento_bucle prob_exito (range 1 4) s.

(** One iteration of the body of [for _ in range(num_pruebas)]. *)
Definition paso (p_exito : Q) (s : Globals) : Globals :=
  let (resultado, s1) := intento_usuario p_exito s in
  if (resultado >? 0)%Z then
    let s2 := set_exitos (exitos s1 + 1) s1 in
    set_total_intentos (total_intentos s2 + resultado) s2
  else
    let s2 := set_fracasos (fracasos s1 + 1) s1 in
    set_total_intentos (total_intentos s2 + 3) s2.

Fixpoint bucle (k : nat) (p_exito : Q) (s : Globals) : Globals :=
  match k with
  | O => s
  | S k' => bucle k' p_exito (paso p_exito s)
  end.

(** The simulation part of the cell, run in the global state [s] left by
    whatever was executed before: the generator is created from the seed,
    the counters are reset, then the loop runs. *)
Definition simulacion (seed : Z) (p_exito : Q) (num_pruebas : Z)
  (s : Globals) : Globals :=
  let s := set_rng (default_rng seed) s in
  let s := set_total_intentos 0 s in
  let s := set_exitos 0 s in
  let s := set_fracasos 0 s in
  bucle (Z.to_nat num_pruebas) p_exito s.

(** [a / b] on two ints *)
Definition truediv (a b : Z) : Py Q :=
  if (b =? 0)%Z then raise ZeroDivisionError
  else ret (inject_Z a / inject_Z b).

Record Simulado : Type := mkSimulado {
  prob_exito_simulada : Q;
  prob_fallo_simulada : Q;
  intentos_promedio : Q
}.

(** The three quotients of the final report. *)
Definition resultados (num_pruebas : Z) (s : Globals) : Py Simulado :=
  pe <- truediv (exitos s) num_pruebas ;;
  pf <- truediv (fracasos s) num_pruebas ;;
  ip <- truediv (total_intentos s) num_pruebas ;;
  ret (mkSimulado pe pf ip).

(** The whole cell: analysis, simulation, report. *)
Definition celda (seed : Z) (p_exito : Q) (num_pruebas : Z) (s : Globals)
  : Py (Teorico * Simulado * Globals) :=
  t <- analisis p_exito ;;
  let s' := simulacion seed p_exito num_pruebas s in
  r <- resultados num_pruebas s' ;;
  ret (t, r, s').

End Simulacion.

Arguments Globals : clear implicits.
Arguments mkGlobals {G} _ _ _ _.

(** The generator after [k] draws, and the draw number [k] (from 0). *)
Fixpoint advance {G : Generator} (k : nat) (g : gen) : gen :=
  match k with
  | O => g
  | S k' => advance k' (snd (random g))
  end.

Definition draw {G : Generator} (k : nat) (g : gen) : Q :=
  fst (random (advance k g)).

(** The linear congruential generator is a generator. *)
#[export] Instance LcgGenerator : Generator.
Proof.
  refine {| gen := Z; default_rng := Lcg.seed_state; random := Lcg.draw |}.
  intros s. unfold Lcg.draw, Lcg.next; cbn [fst].
  set (x := (1103515245 * s + 12345)%Z).
  pose proof (Z.mod_pos_bound x (Z.pos Lcg.modulus) eq_refl) as [Hlo Hhi].
  unfold Qle, Qlt; cbn [Qnum Qden]. split; lia.
Defined.

(** A global state left over by an earlier execution. *)
Definition estado_previo : Globals LcgGenerator :=
  mkGlobals 99%Z 7%Z 5%Z 2%Z.

(** * Properties *)

(** ** Evaluation and arithmetic helpers *)

(** Unfolds the list and matrix functions, keeps the rational operations. *)
Ltac np_eval :=
  cbv -[Qplus Qmult Qminus Qopp Qdiv Qeq Qinv Qpower Qlt Qle].

(** Closes [~ e == 0] from [E : ~ e' == 0] when [e'] and [e] are equal
    as polynomials. *)
Ltac nonzero_from E :=
  let H := fresh in
  intros H; apply E; (etransitivity; [|exact H]); ring.

(** Splits conjunctions only (an equation of rationals is left alone). *)
Ltac split_conj :=
  repeat match goal with |- _ /\ _ => split end.

Ltac forall2_entries :=
  repeat (apply Forall2_cons || apply Forall2_nil).

Lemma Qltb_lt (x y : Q) : Qltb x y = true <-> x < y.
Proof.
  unfold Qltb. rewrite negb_true_iff. split.
  - intros H. apply Qnot_le_lt. intros Hle.
    apply Qle_bool_iff in Hle. congruence.
  - intros H. destruct (Qle_bool y x) eqn:E; [|reflexivity].
    apply Qle_bool_iff in E. exfalso. apply (Qlt_not_le _ _ H E).
Qed.


Lemma Qltb_not_lt (x y : Q) : ~ x < y -> Qltb x y = false.
Proof.
  intros H. destruct (Qltb x y) eqn:E; [|reflexivity].
  apply Qltb_lt in E. contradiction.
Qed.

Lemma inject_Z_nonzero (b : Z) : (b <> 0)%Z -> ~ inject_Z b == 0.
Proof.
  intros Hb H. apply Hb. unfold Qeq, inject_Z in H. cbn in H. lia.
Qed.

(** ** The model of [np.linalg.inv] on 3 by 3 matrices *)

Lemma square3_entries (A : Np.matrix) :
  Np.square 3 A ->
  exists a b c d e f g h i, A = [[a; b; c]; [d; e; f]; [g; h; i]].
Proof.
  intros [Hl Hr].
  destruct A as [|r0 [|r1 [|r2 [|? ?]]]]; try discriminate.
  inversion Hr as [|? ? H0 Hr1]; subst.
  inversion Hr1 as [|? ? H1 Hr2]; subst.
  inversion Hr2 as [|? ? H2 _]; subst.
  destruct r0 as [|a [|b [|c [|? ?]]]]; try discriminate.
  destruct r1 as [|d [|e [|f [|? ?]]]]; try discriminate.
  destruct r2 as [|g [|h [|i [|? ?]]]]; try discriminate.
  now exists a, b, c, d, e, f, g, h, i.
Qed.

Lemma inv_nonsingular (A : Np.matrix) :
  ~ Np.det A == 0 ->
  Np.inv A = inr (map (map (fun c => c / Np.det A)) (Np.adjugate A)).
Proof.
  intros Hd. unfold Np.inv.
  destruct (Qeq_bool (Np.det A) 0) eqn:E; [|reflexivity].
  apply Qeq_bool_eq in E. contradiction.
Qed.

(** A result of [inv] is a two-sided inverse. *)
Lemma inv_is_inverse (A B : Np.matrix) :
  Np.square 3 A -> Np.inv A = inr B ->
  Np.square 3 B
  /\ Np.meq (Np.matmul A B) (Np.identity 3)
  /\ Np.meq (Np.matmul B A) (Np.identity 3).
Proof.
  intros HA HB.
  destruct (square3_entries A HA) as (a & b & c & d & e & f & g & h & i & ->).
  unfold Np.inv in HB.
  destruct (Qeq_bool _ 0) eqn:E; [discriminate|].
  apply Qeq_bool_neq in E. injection HB as <-.
  revert E. np_eval. intros E.
  split; [|split].
  - split; [reflexivity|]. repeat constructor.
  - forall2_entries; field; nonzero_from E.
  - forall2_entries; field; nonzero_from E.
Qed.

Lemma square_matmul (A B : Np.matrix) :
  Np.square 3 A -> Np.square 3 B -> Np.square 3 (Np.matmul A B).
Proof.
  intros HA HB.
  destruct (square3_entries A HA) as (a & b & c & d & e & f & g & h & i & ->).
  destruct (square3_entries B HB)
    as (a' & b' & c' & d' & e' & f' & g' & h' & i' & ->).
  split; [reflexivity|]. repeat constructor.
Qed.

Lemma det_matmul (A B : Np.matrix) :
  Np.square 3 A -> Np.square 3 B ->
  Np.det (Np.matmul A B) == Np.det A * Np.det B.
Proof.
  intros HA HB.
  destruct (square3_entries A HA) as (a & b & c & d & e & f & g & h & i & ->).
  destruct (square3_entries B HB)
    as (a' & b' & c' & d' & e' & f' & g' & h' & i' & ->).
  np_eval. ring.
Qed.

Lemma det_meq (A B : Np.matrix) :
  Np.square 3 A -> Np.meq A B -> Np.det A == Np.det B.
Proof.
  intros HA HAB.
  destruct (square3_entries A HA) as (a & b & c & d & e & f & g & h & i & ->).
  unfold Np.meq, Np.veq in HAB.
  repeat match goal with
         | H : Forall2 _ (_ :: _) _ |- _ => inversion H; clear H; subst
         | H : Forall2 _ [] _ |- _ => inversion H; clear H; subst
         end.
  np_eval.
  repeat match goal with H : _ == _ |- _ => rewrite H; clear H end.
  reflexivity.
Qed.

(** The only error of [inv] is [LinAlgError], and it is raised on singular
    matrices only. *)
Lemma inv_error_singular (A : Np.matrix) (err : PyError) :
  Np.square 3 A -> Np.inv A = inl err ->
  err = LinAlgError /\ Np.singular 3 A.
Proof.
  intros HA HE. unfold Np.inv in HE.
  destruct (Qeq_bool _ 0) eqn:E; [|discriminate].
  apply Qeq_bool_eq in E. injection HE as <-. split; [reflexivity|].
  intros B HB HI.
  apply (det_meq _ _ (square_matmul A B HA HB)) in HI.
  rewrite (det_matmul A B HA HB), E in HI.
  revert HI. np_eval. intros HI.
  assert (H01 : 0 == 1) by (etransitivity; [|exact HI]; ring).
  discriminate.
Qed.

(** A singular matrix makes [inv] raise. *)
Lemma inv_singular_raises (A : Np.matrix) :
  Np.square 3 A -> Np.singular 3 A -> Np.inv A = raise LinAlgError.
Proof.
  intros HA Hsing.
  destruct (Np.inv A) as [err|B] eqn:E.
  - destruct (inv_error_singular A err HA E) as [-> _]. reflexivity.
  - destruct (inv_is_inverse A B HA E) as (HB & HAB & _).
    exfalso. exact (Hsing B HB HAB).
Qed.

Example inv_singular_example :
  Np.inv [[1; 2; 3]; [2; 4; 6]; [0; 0; 1]] = raise LinAlgError.
Proof. reflexivity. Qed.

(** *** The inversion and the analysis in doubles, on concrete inputs *)

Example inv64_exactly_singular :
  Np64.inv [ [1; 2; 3]; [2; 4; 6]; [0; 0; 1] ]%float = raise LinAlgError.
Proof. vm_compute. reflexivity. Qed.

Example inv64_permutation :
  Np64.inv [ [0; 1; 0]; [0; 0; 1]; [1; 0; 0] ]%float
  = inr [ [0; 0; 1]; [1; 0; 0]; [0; 1; 0] ]%float.
Proof. vm_compute. reflexivity. Qed.

Example analisis64_cancellation :
  exists t,
    analisis64 1e20 = inr t
    /\ prob_exito_teorica64 t = 1e60%float
    /\ prob_fallo_teorica64 t = (-1e60)%float
    /\ (prob_exito_teorica64 t + prob_fallo_teorica64 t)%float = 0%float.
Proof. eexists. split_conj; vm_compute; reflexivity. Qed.

Example analisis64_overflow :
  analisis64 1e200 = inr (mkTeorico64 nan neg_infinity infinity).
Proof. vm_compute. reflexivity. Qed.

Example analisis64_p_one :
  analisis64 1 = inr (mkTeorico64 1 0 1).
Proof. vm_compute. reflexivity. Qed.

(** ** The analytic computation *)


Lemma det_I_minus_Q (p : Q) : Np.det (Np.sub I3 (Qmat p)) == 1.
Proof. np_eval. ring. Qed.

Lemma N_value (p : Q) :
  N p = inr (map (map (fun c => c / Np.det (Np.sub I3 (Qmat p))))
                 (Np.adjugate (Np.sub I3 (Qmat p)))).
Proof.
  unfold N. apply inv_nonsingular. rewrite det_I_minus_Q. discriminate.
Qed.

(** The fundamental matrix is [[1, q, q^2], [0, 1, q], [0, 0, 1]] with
    [q = p_fallo]. *)
Lemma N_closed_form (p : Q) :
  exists Nm, N p = inr Nm
    /\ Np.meq Nm [ [1; p_fallo p; p_fallo p * p_fallo p];
                   [0; 1; p_fallo p];
                   [0; 0; 1] ].
Proof.
  rewrite N_value. eexists; split; [reflexivity|].
  pose proof (det_I_minus_Q p) as Hd. revert Hd.
  np_eval. intros Hd.
  assert (Hnz : forall d, d == 1 -> ~ d == 0)
    by (intros d H1 H0; rewrite H1 in H0; discriminate).
  forall2_entries; field; apply Hnz; exact Hd.
Qed.

(** The analytic computation raises nothing and returns the closed forms,
    whatever the value of [p_exito]. *)
Lemma analisis_closed_form (p : Q) :
  exists Nm t,
    N p = inr Nm
    /\ analisis p = inr t
    /\ Np.getrow (Np.matmul Nm (R p)) 0
       = inr [prob_exito_teorica t; prob_fallo_teorica t]
    /\ intentos_teoricos t = Np.dot (hd [] Nm) (Np.ones 3)
    /\ prob_exito_teorica t == 1 - (1 - p) ^ 3
    /\ prob_fallo_teorica t == (1 - p) ^ 3
    /\ intentos_teoricos t == 1 + (1 - p) + (1 - p) ^ 2.
Proof.
  unfold analisis. rewrite N_value.
  pose proof (det_I_minus_Q p) as Hd. revert Hd.
  np_eval. intros Hd.
  do 2 eexists. split; [reflexivity|]. split; [reflexivity|].
  cbn [prob_exito_teorica prob_fallo_teorica intentos_teoricos].
  split; [reflexivity|]. split; [reflexivity|].
  assert (Hnz : forall d, d == 1 -> ~ d == 0)
    by (intros d H1 H0; rewrite H1 in H0; discriminate).
  repeat split; field; apply Hnz; exact Hd.
Qed.

(** ** The simulation loop *)

Section SimulacionFacts.

Context {G : Generator}.

Lemma range_1_4 : range 1 4 = [1; 2; 3]%Z.
Proof. reflexivity. Qed.

Lemma draw_range (k : nat) (g : gen) : 0 <= draw k g /\ draw k g < 1.
Proof. apply random_range. Qed.

Lemma advance_S (k : nat) (g : gen) :
  advance (S k) g = advance 1 (advance k g).
Proof.
  revert g. induction k as [|k IH]; intros g; [reflexivity|].
  change (advance (S (S k)) g) with (advance (S k) (snd (random g))).
  rewrite IH. reflexivity.
Qed.

Lemma advance_add (j k : nat) (g : gen) :
  advance (j + k) g = advance k (advance j g).
Proof.
  revert g. induction j as [|j IH]; intros g; [reflexivity|].
  cbn [Nat.add advance]. apply IH.
Qed.

(** [intento_usuario] as a decision list on the next three draws. *)
Lemma intento_usuario_unfold (p : Q) (s : Globals G) :
  intento_usuario p s =
    if Qltb (draw 0 (rng s)) p then (1%Z, set_rng (advance 1 (rng s)) s)
    else if Qltb (draw 1 (rng s)) p then (2%Z, set_rng (advance 2 (rng s)) s)
    else if Qltb (draw 2 (rng s)) p then (3%Z, set_rng (advance 3 (rng s)) s)
    else (0%Z, set_rng (advance 3 (rng s)) s).
Proof.
  unfold intento_usuario. rewrite range_1_4.
  unfold draw. cbn [intento_bucle advance]. unfold rng_random.
  destruct s as [g t e f]. cbn [rng set_rng total_intentos exitos fracasos].
  destruct (random g) as [u1 g1] eqn:E1. cbn [fst snd].
  destruct (Qltb u1 p); [reflexivity|].
  cbn [rng set_rng total_intentos exitos fracasos].
  destruct (random g1) as [u2 g2] eqn:E2. cbn [fst snd].
  destruct (Qltb u2 p); [reflexivity|].
  cbn [rng set_rng total_intentos exitos fracasos].
  destruct (random g2) as [u3 g3] eqn:E3. cbn [fst snd].
  destruct (Qltb u3 p); reflexivity.
Qed.

Lemma paso_unfold (p : Q) (s : Globals G) :
  paso p s =
    let g := rng s in
    if Qltb (draw 0 g) p then
      mkGlobals (advance 1 g) (total_intentos s + 1) (exitos s + 1) (fracasos s)
    else if Qltb (draw 1 g) p then
      mkGlobals (advance 2 g) (total_intentos s + 2) (exitos s + 1) (fracasos s)
    else if Qltb (draw 2 g) p then
      mkGlobals (advance 3 g) (total_intentos s + 3) (exitos s + 1) (fracasos s)
    else
      mkGlobals (advance 3 g) (total_intentos s + 3) (exitos s) (fracasos s + 1).
Proof.
  unfold paso. rewrite intento_usuario_unfold. cbv zeta.
  destruct (Qltb (draw 0 (rng s)) p); [reflexivity|].
  destruct (Qltb (draw 1 (rng s)) p); [reflexivity|].
  destruct (Qltb (draw 2 (rng s)) p); reflexivity.
Qed.

(** The call reads the global generator, advances it by one to three
    draws and touches nothing else. *)
Lemma intento_usuario_advances (p : Q) (s : Globals G) :
  exists k, (1 <= k <= 3)%nat
    /\ snd (intento_usuario p s) = set_rng (advance k (rng s)) s.
Proof.
  rewrite intento_usuario_unfold.
  destruct (Qltb (draw 0 (rng s)) p); [exists 1%nat; split; [lia|reflexivity]|].
  destruct (Qltb (draw 1 (rng s)) p); [exists 2%nat; split; [lia|reflexivity]|].
  destruct (Qltb (draw 2 (rng s)) p); exists 3%nat; split; (lia || reflexivity).
Qed.

Lemma bucle_S (k : nat) (p : Q) (s : Globals G) :
  bucle (S k) p s = paso p (bucle k p s).
Proof.
  revert s. induction k as [|k IH]; intros s; [reflexivity|].
  change (bucle (S (S k)) p s) with (bucle (S k) p (paso p s)).
  rewrite IH. reflexivity.
Qed.

(** Each trial increments exactly one of the two outcome counters. *)
Lemma paso_exactly_one (p : Q) (s : Globals G) :
  (exitos (paso p s) = exitos s + 1 /\ fracasos (paso p s) = fracasos s
   /\ 1 <= total_intentos (paso p s) - total_intentos s <= 3)%Z
  \/ (exitos (paso p s) = exitos s /\ fracasos (paso p s) = fracasos s + 1
      /\ total_intentos (paso p s) = total_intentos s + 3)%Z.
Proof.
  rewrite paso_unfold. cbv zeta.
  destruct (Qltb (draw 0 (rng s)) p); [left; cbn; lia|].
  destruct (Qltb (draw 1 (rng s)) p); [left; cbn; lia|].
  destruct (Qltb (draw 2 (rng s)) p); [left|right]; cbn; lia.
Qed.

Lemma bucle_counts (k : nat) (p : Q) (s : Globals G) :
  (exitos (bucle k p s) + fracasos (bucle k p s)
   = exitos s + fracasos s + Z.of_nat k)%Z.
Proof.
  induction k as [|k IH]; [cbn; lia|].
  rewrite bucle_S.
  destruct (paso_exactly_one p (bucle k p s)) as [(He & Hf & _)|(He & Hf & _)];
    rewrite He, Hf; lia.
Qed.

(** The assignments at the head of the simulation overwrite every global
    the loop uses. *)
Lemma simulacion_eq (seed : Z) (p : Q) (num : Z) (s : Globals G) :
  simulacion seed p num s
  = bucle (Z.to_nat num) p (mkGlobals (default_rng seed) 0 0 0).
Proof. reflexivity. Qed.

Lemma paso_p_one (s : Globals G) :
  paso 1 s = mkGlobals (advance 1 (rng s)) (total_intentos s + 1)
                       (exitos s + 1) (fracasos s).
Proof.
  rewrite paso_unfold. cbv zeta.
  destruct (draw_range 0 (rng s)) as [_ Hlt].
  apply Qltb_lt in Hlt. now rewrite Hlt.
Qed.



Lemma bucle_p_one (k : nat) (s : Globals G) :
  bucle k 1 s = mkGlobals (advance k (rng s)) (total_intentos s + Z.of_nat k)
                          (exitos s + Z.of_nat k) (fracasos s).
Proof.
  induction k as [|k IH].
  - destruct s; cbn. f_equal; lia.
  - rewrite bucle_S, IH, paso_p_one. cbn [rng total_intentos exitos fracasos].
    rewrite <- advance_S. f_equal; lia.
Qed.


Lemma truediv_nonzero (a b : Z) :
  (b <> 0)%Z -> truediv a b = inr (inject_Z a / inject_Z b).
Proof.
  intros Hb. unfold truediv.
  destruct (Z.eqb_spec b 0); [contradiction|reflexivity].
Qed.

Lemma resultados_nonzero (num : Z) (s : Globals G) :
  (num <> 0)%Z ->
  resultados num s
  = inr (mkSimulado (inject_Z (exitos s) / inject_Z num)
                    (inject_Z (fracasos s) / inject_Z num)
                    (inject_Z (total_intentos s) / inject_Z num)).
Proof.
  intros Hn. unfold resultados. rewrite !(truediv_nonzero _ _ Hn). reflexivity.
Qed.

Lemma resultados_zero (s : Globals G) :
  resultados 0 s = raise ZeroDivisionError.
Proof. reflexivity. Qed.

(** The cell raises exactly when [num_pruebas] is zero, and then it is the
    division of the report that raises. *)
Lemma celda_nonzero (seed : Z) (p : Q) (num : Z) (s : Globals G) :
  (num <> 0)%Z ->
  exists t r, celda seed p num s = inr (t, r, simulacion seed p num s)
              /\ analisis p = inr t
              /\ resultados num (simulacion seed p num s) = inr r.
Proof.
  intros Hn. unfold celda.
  destruct (analisis_closed_form p) as (Nm & t & _ & Ht & _).
  rewrite Ht. cbn [bind]. rewrite (resultados_nonzero _ _ Hn). cbn [bind ret].
  do 2 eexists. repeat split. 
Qed.

Lemma celda_zero (seed : Z) (p : Q) (s : Globals G) :
  celda seed p 0 s = raise ZeroDivisionError.
Proof.
  unfold celda.
  destruct (analisis_closed_form p) as (Nm & t & _ & Ht & _).
  rewrite Ht. reflexivity.
Qed.

End SimulacionFacts.

(** * The claims *)

(** C1 (as amended). With three attempts and [p_exito = 0.6] the
    analytic computation (row 0 of [N @ R] and row 0 of [N] against the
    vector of ones) returns, in exact arithmetic, the success probability
    [1 - (1-p)^3 = 0.936], the failure probability [0.064] and the
    expected number of attempts [1 + (1-p) + (1-p)^2 = 1.56].  The doubles
    the code computes are 0.9359999999999999, 0.06400000000000002 and
    1.56: the two probabilities agree with 0.936 and 0.064 within 1e-15
    and are not equal to them. *)
Theorem C1_analytic_values :
  (exists Nm t,
     N (6 # 10) = inr Nm
     /\ analisis (6 # 10) = inr t
     /\ Np.getrow (Np.matmul Nm (R (6 # 10))) 0
        = inr [prob_exito_teorica t; prob_fallo_teorica t]
     /\ intentos_teoricos t = Np.dot (hd [] Nm) (Np.ones 3)
     /\ prob_exito_teorica t == 1 - (1 - (6 # 10)) ^ 3
     /\ prob_exito_teorica t == 936 # 1000
     /\ prob_fallo_teorica t == 64 # 1000
     /\ intentos_teoricos t == 1 + (1 - (6 # 10)) + (1 - (6 # 10)) ^ 2
     /\ intentos_teoricos t == 156 # 100)
  /\ (exists Nm t,
        N64 0.6 = inr Nm
        /\ analisis64 0.6 = inr t
        /\ Np64.getrow (Np64.matmul Nm (R64 0.6)) 0
           = inr [prob_exito_teorica64 t; prob_fallo_teorica64 t]
        /\ intentos_teoricos64 t = Np64.dot (hd [] Nm) (Np64.ones 3)
        /\ prob_exito_teorica64 t = 0.9359999999999999%float
        /\ prob_fallo_teorica64 t = 0.06400000000000002%float
        /\ intentos_teoricos64 t = 1.56%float
        /\ (abs (prob_exito_teorica64 t - 0.936) <=? 1e-15)%float = true
        /\ (abs (prob_fallo_teorica64 t - 0.064) <=? 1e-15)%float = true).
Proof.
  split.
  - destruct (analisis_closed_form (6 # 10))
      as (Nm & t & HN & Ht & Hrow & Hones & He & Hf & Hi).
    exists Nm, t.
    split; [exact HN|]. split; [exact Ht|]. split; [exact Hrow|].
    split; [exact Hones|]. split; [exact He|].
    split; [rewrite He; reflexivity|].
    split; [rewrite Hf; reflexivity|].
    split; [exact Hi|].
    rewrite Hi; reflexivity.
  - exists [ [1; 0.4; 0.16000000000000003]; [0; 1; 0.4]; [0; 0; 1] ]%float,
      (mkTeorico64 0.9359999999999999 0.06400000000000002 1.56).
    split_conj; vm_compute; reflexivity.
Qed.

(** C1, counterexample: at [p_exito = 0.6] the doubles returned by the
    analytic computation are not 0.936 and 0.064; the success probability
    is below 0.936 and the failure probability above 0.064. *)
Lemma C1_counterexample :
  exists t,
    analisis64 0.6 = inr t
    /\ (prob_exito_teorica64 t =? 0.936)%float = false
    /\ (prob_exito_teorica64 t <? 0.936)%float = true
    /\ (prob_fallo_teorica64 t =? 0.064)%float = false
    /\ (0.064 <? prob_fallo_teorica64 t)%float = true.
Proof.
  exists (mkTeorico64 0.9359999999999999 0.06400000000000002 1.56).
  split_conj; vm_compute; reflexivity.
Qed.

(** C2. A trial draws for the attempt indices 1, 2, 3 in order, each draw
    lying in [0, 1).  At the first index [i] whose draw is below
    [prob_exito] the trial returns [i], the generator has advanced by
    exactly [i] draws, and the loop body adds one success and [i] attempts.
    When none of the three draws is below [prob_exito] the trial returns 0
    and the loop body adds one failure and exactly 3 attempts. *)
Theorem C2_trial_procedure {G : Generator} (p : Q) (s : Globals G) :
  (forall k, 0 <= draw k (rng s) /\ draw k (rng s) < 1)
  /\ (forall i : nat, (1 <= i <= 3)%nat ->
        (forall k, (k < i - 1)%nat -> ~ draw k (rng s) < p) ->
        draw (i - 1) (rng s) < p ->
        intento_usuario p s = (Z.of_nat i, set_rng (advance i (rng s)) s)
        /\ paso p s = mkGlobals (advance i (rng s))
                                (total_intentos s + Z.of_nat i)
                                (exitos s + 1) (fracasos s))
  /\ ((forall k, (k < 3)%nat -> ~ draw k (rng s) < p) ->
        intento_usuario p s = (0%Z, set_rng (advance 3 (rng s)) s)
        /\ paso p s = mkGlobals (advance 3 (rng s))
                                (total_intentos s + 3)
                                (exitos s) (fracasos s + 1)).
Proof.
  split; [intros k; apply draw_range|].
  rewrite intento_usuario_unfold, paso_unfold. cbv zeta.
  split.
  - intros i Hi Hbefore Hat.
    assert (Hcases : i = 1%nat \/ i = 2%nat \/ i = 3%nat) by lia.
    destruct Hcases as [-> | [-> | ->]]; cbn [Nat.sub] in Hat;
      apply Qltb_lt in Hat.
    + rewrite Hat. split; reflexivity.
    + rewrite (Qltb_not_lt _ _ (Hbefore 0%nat ltac:(lia))), Hat.
      split; reflexivity.
    + rewrite (Qltb_not_lt _ _ (Hbefore 0%nat ltac:(lia))),
        (Qltb_not_lt _ _ (Hbefore 1%nat ltac:(lia))), Hat.
      split; reflexivity.
  - intros Hnone.
    rewrite (Qltb_not_lt _ _ (Hnone 0%nat ltac:(lia))),
      (Qltb_not_lt _ _ (Hnone 1%nat ltac:(lia))),
      (Qltb_not_lt _ _ (Hnone 2%nat ltac:(lia))).
    split; reflexivity.
Qed.

Lemma C2_witness :
  let s := mkGlobals (G := LcgGenerator) (Lcg.seed_state 123) 0 0 0 in
  ((1 <= 1 <= 3)%nat
   /\ draw (1 - 1) (rng s) < 6 # 10
   /\ intento_usuario (6 # 10) s = (Z.of_nat 1, set_rng (advance 1 (rng s)) s)
   /\ paso (6 # 10) s = mkGlobals (advance 1 (rng s)) (0 + Z.of_nat 1) (0 + 1) 0)
  /\ ((forall k, (k < 3)%nat -> ~ draw k (rng s) < 1 # 100)
      /\ intento_usuario (1 # 100) s = (0%Z, set_rng (advance 3 (rng s)) s)
      /\ paso (1 # 100) s = mkGlobals (advance 3 (rng s)) (0 + 3) 0 (0 + 1)).
Proof.
  intros s.
  assert (Hnone : forall k, (k < 3)%nat -> ~ draw k (rng s) < 1 # 100).
  { intros k Hk.
    destruct k as [|[|[|k]]]; [| | |lia]; vm_compute; intros H; discriminate H. }
  split.
  - split; [lia|]. split; [reflexivity|].
    destruct (C2_trial_procedure (6 # 10) s) as (_ & Hsuccess & _).
    apply (Hsuccess 1%nat); [lia|intros k Hk; lia|reflexivity].
  - split; [exact Hnone|].
    destruct (C2_trial_procedure (1 # 100) s) as (_ & _ & Hfailure).
    apply Hfailure. exact Hnone.
Defined.

Example C2_run_success :
  let s := mkGlobals (G := LcgGenerator) (Lcg.seed_state 123) 0 0 0 in
  intento_usuario (6 # 10) s = (1%Z, set_rng (advance 1 (rng s)) s)
  /\ paso (6 # 10) s = mkGlobals (advance 1 (rng s)) 1 1 0.
Proof. split; reflexivity. Qed.

Example C2_run_failure :
  let s := mkGlobals (G := LcgGenerator) (Lcg.seed_state 123) 0 0 0 in
  intento_usuario (1 # 100) s = (0%Z, set_rng (advance 3 (rng s)) s)
  /\ paso (1 # 100) s = mkGlobals (advance 3 (rng s)) 3 0 1.
Proof. split; reflexivity. Qed.

(** C3. For every [p_exito] in (0, 1] (the number of attempts being the 3
    of the code) the two absorption probabilities of row 0 of [N @ R] sum
    to 1 exactly, hence within the tolerance 1e-9. *)
Theorem C3_absorption_sums_to_one (p : Q) :
  0 < p -> p <= 1 ->
  exists Nm t,
    N p = inr Nm
    /\ analisis p = inr t
    /\ Np.getrow (Np.matmul Nm (R p)) 0
       = inr [prob_exito_teorica t; prob_fallo_teorica t]
    /\ prob_exito_teorica t + prob_fallo_teorica t == 1
    /\ Qabs (prob_exito_teorica t + prob_fallo_teorica t - 1)
       <= 1 # 1000000000.
Proof.
  intros _ _.
  destruct (analisis_closed_form p)
    as (Nm & t & HN & Ht & Hrow & _ & He & Hf & _).
  exists Nm, t. split_conj; try assumption.
  - rewrite He, Hf. ring.
  - assert (Hz : prob_exito_teorica t + prob_fallo_teorica t - 1 == 0)
      by (rewrite He, Hf; ring).
    rewrite Hz. discriminate.
Qed.

Lemma C3_witness :
  0 < 6 # 10 /\ 6 # 10 <= 1 /\
  exists Nm t,
    N (6 # 10) = inr Nm
    /\ analisis (6 # 10) = inr t
    /\ Np.getrow (Np.matmul Nm (R (6 # 10))) 0
       = inr [prob_exito_teorica t; prob_fallo_teorica t]
    /\ prob_exito_teorica t + prob_fallo_teorica t == 1
    /\ Qabs (prob_exito_teorica t + prob_fallo_teorica t - 1)
       <= 1 # 1000000000.
Proof.
  split; [reflexivity|]. split; [discriminate|].
  apply (C3_absorption_sums_to_one (6 # 10)); [reflexivity|discriminate].
Defined.

(** C4 (as amended). The simulation is deterministic: two executions with
    the same seed, [p_exito] and [num_pruebas] end in the same counters and
    the same generator state, whatever global state each one starts from,
    because the generator is re-created from the seed and the counters are
    reset.  The random source is the module-level generator: the result of
    [intento_usuario] is a function of its argument and of that global, and
    every call advances the global by one to three draws. *)
Theorem C4_deterministic_given_seed {G : Generator}
  (seed : Z) (p : Q) (num : Z) (s1 s2 : Globals G) :
  simulacion seed p num s1 = simulacion seed p num s2
  /\ celda seed p num s1 = celda seed p num s2
  /\ (forall s s' : Globals G, rng s = rng s' ->
        fst (intento_usuario p s) = fst (intento_usuario p s')
        /\ rng (snd (intento_usuario p s)) = rng (snd (intento_usuario p s')))
  /\ (forall s : Globals G, exists k, (1 <= k <= 3)%nat
        /\ snd (intento_usuario p s) = set_rng (advance k (rng s)) s).
Proof.
  split; [rewrite !simulacion_eq; reflexivity|].
  split.
  { unfold celda. rewrite !simulacion_eq. reflexivity. }
  split; [|intros s; apply intento_usuario_advances].
  intros s s' Hrng. rewrite !intento_usuario_unfold, Hrng.
  destruct (Qltb (draw 0 (rng s')) p); [split; reflexivity|].
  destruct (Qltb (draw 1 (rng s')) p); [split; reflexivity|].
  destruct (Qltb (draw 2 (rng s')) p); split; reflexivity.
Qed.

(** C4, counterexample to the random source being explicit: the result of
    [intento_usuario] is not determined by its argument.  With the
    generator seeded by 123, two successive calls with the same argument
    0.6 return 1 and 3. *)
Lemma C4_counterexample :
  (let s1 := simulacion 123 (6 # 10) 0 estado_previo in
   let s2 := snd (intento_usuario (6 # 10) s1) in
   fst (intento_usuario (6 # 10) s1) = 1%Z
   /\ fst (intento_usuario (6 # 10) s2) = 3%Z)
  /\ ~ (forall (p : Q) (s1 s2 : Globals LcgGenerator),
          fst (intento_usuario p s1) = fst (intento_usuario p s2)).
Proof.
  split; [split; reflexivity|].
  intros H.
  specialize (H (6 # 10) (simulacion 123 (6 # 10) 0 estado_previo)
                (snd (intento_usuario (6 # 10)
                        (simulacion 123 (6 # 10) 0 estado_previo)))).
  vm_compute in H. discriminate H.
Qed.

(** C5 (as amended). The code validates no parameter and has no
    invalid-parameter error.  The analytic computation raises nothing
    whatever [p_exito] is: in doubles it returns 0, 1 and 3 at
    [p_exito = 0] and 1.125, -0.125 and 0.75 at [p_exito = 1.5].  For
    [num_pruebas <= 0] the loop runs no trial and leaves the counters at
    0; the cell returns its results for every [num_pruebas] other than 0
    and raises [ZeroDivisionError], from the divisions of the report, for
    [num_pruebas = 0]. *)
Theorem C5_no_parameter_validation {G : Generator}
  (seed : Z) (p : Q) (num : Z) (s : Globals G) :
  (exists t, analisis p = inr t)
  /\ analisis64 0 = inr (mkTeorico64 0 1 3)
  /\ analisis64 1.5 = inr (mkTeorico64 1.125 (-0.125) 0.75)
  /\ ((num <= 0)%Z ->
        simulacion seed p num s = mkGlobals (default_rng seed) 0 0 0)
  /\ ((num <> 0)%Z ->
        exists t r, celda seed p num s = inr (t, r, simulacion seed p num s))
  /\ celda seed p 0 s = raise ZeroDivisionError.
Proof.
  split.
  { destruct (analisis_closed_form p) as (Nm & t & _ & Ht & _).
    exists t. exact Ht. }
  split; [vm_compute; reflexivity|].
  split; [vm_compute; reflexivity|].
  split.
  { intros Hn. rewrite simulacion_eq.
    replace (Z.to_nat num) with 0%nat by (destruct num; cbn; lia).
    reflexivity. }
  split; [|apply celda_zero].
  intros Hn. destruct (celda_nonzero seed p num s Hn) as (t & r & H & _).
  now exists t, r.
Qed.

(** C5, counterexample: [p_exito = 0] lies outside (0, 1], yet the
    analytic computation returns 0, 1 and 3 and the whole cell returns a
    result; so does the cell for [p_exito = 1.5] and for
    [num_pruebas = -5]. *)
Lemma C5_counterexample :
  ~ (0 < 0 /\ 0 <= 1)
  /\ (exists t, analisis 0 = inr t
        /\ prob_exito_teorica t == 0
        /\ prob_fallo_teorica t == 1
        /\ intentos_teoricos t == 3)
  /\ (exists v, celda 123 0 10 estado_previo = inr v)
  /\ (exists v, celda 123 (15 # 10) 10 estado_previo = inr v)
  /\ (exists v, celda 123 (6 # 10) (-5) estado_previo = inr v).
Proof.
  split; [intros [H _]; discriminate H|].
  split.
  { destruct (analisis_closed_form 0) as (Nm & t & _ & Ht & _ & _ & He & Hf & Hi).
    exists t. split; [exact Ht|].
    split; [rewrite He; reflexivity|].
    split; [rewrite Hf; reflexivity|rewrite Hi; reflexivity]. }
  split; [|split].
  - destruct (celda_nonzero 123 0 10 estado_previo ltac:(discriminate))
      as (t & r & H & _). eexists; exact H.
  - destruct (celda_nonzero 123 (15 # 10) 10 estado_previo ltac:(discriminate))
      as (t & r & H & _). eexists; exact H.
  - destruct (celda_nonzero 123 (6 # 10) (-5) estado_previo ltac:(discriminate))
      as (t & r & H & _). eexists; exact H.
Qed.




Example singular_example :
  Np.singular 3 [[1; 2; 3]; [2; 4; 6]; [0; 0; 1]].
Proof.
  apply (inv_error_singular _ LinAlgError); [|reflexivity].
  split; [reflexivity|]. repeat constructor.
Qed.

(** C7. For [p_exito = 1] the analytic computation returns success
    probability 1 and expected attempts 1, and, for every generator, seed
    and global state, every trial succeeds at the first attempt after a
    single draw: after the simulation the successes and the cumulative
    attempts both equal the number of trials and there is no failure. *)
Theorem C7_boundary_p_one {G : Generator}
  (seed : Z) (num : Z) (s : Globals G) :
  (exists t, analisis 1 = inr t
     /\ prob_exito_teorica t == 1
     /\ prob_fallo_teorica t == 0
     /\ intentos_teoricos t == 1)
  /\ (forall s' : Globals G,
        intento_usuario 1 s' = (1%Z, set_rng (advance 1 (rng s')) s'))
  /\ (forall (k : nat) (s' : Globals G),
        exitos (bucle k 1 s') = (exitos s' + Z.of_nat k)%Z
        /\ fracasos (bucle k 1 s') = fracasos s'
        /\ total_intentos (bucle k 1 s') = (total_intentos s' + Z.of_nat k)%Z)
  /\ exitos (simulacion seed 1 num s) = Z.max 0 num
  /\ fracasos (simulacion seed 1 num s) = 0%Z
  /\ total_intentos (simulacion seed 1 num s) = Z.max 0 num.
Proof.
  split.
  { destruct (analisis_closed_form 1) as (Nm & t & _ & Ht & _ & _ & He & Hf & Hi).
    exists t. split; [exact Ht|].
    split; [rewrite He; reflexivity|].
    split; [rewrite Hf; reflexivity|rewrite Hi; reflexivity]. }
  split.
  { intros s'. rewrite intento_usuario_unfold.
    destruct (draw_range 0 (rng s')) as [_ Hlt].
    apply Qltb_lt in Hlt. now rewrite Hlt. }
  split.
  { intros k s'. rewrite bucle_p_one. split_conj; reflexivity. }
  rewrite simulacion_eq, bucle_p_one.
  cbn [rng total_intentos exitos fracasos].
  assert (Hmax : Z.of_nat (Z.to_nat num) = Z.max 0 num) by lia.
  rewrite Hmax. split_conj; reflexivity.
Qed.

(** C8. For every [p_exito] in (0, 1] and every transient state [i] of
    the chain built by the code, row [i] of [Q] and row [i] of [R] sum to
    1 together. *)
Theorem C8_rows_sum_to_one (p : Q) (i : nat) :
  0 < p -> p <= 1 -> (i < 3)%nat ->
  Np.sumQ (nth i (Qmat p) []) + Np.sumQ (nth i (R p) []) == 1.
Proof.
  intros _ _ Hi.
  destruct i as [|[|[|i]]]; [| | |lia];
    cbn [nth Qmat R Np.sumQ]; unfold p_fallo; ring.
Qed.

Lemma C8_witness :
  0 < 6 # 10 /\ 6 # 10 <= 1 /\ (2 < 3)%nat /\
  Np.sumQ (nth 2 (Qmat (6 # 10)) []) + Np.sumQ (nth 2 (R (6 # 10)) []) == 1.
Proof.
  split; [reflexivity|]. split; [discriminate|]. split; [lia|].
  apply (C8_rows_sum_to_one (6 # 10) 2); [reflexivity|discriminate|lia].
Defined.

(** C9. Each trial increments exactly one of [exitos] and [fracasos];
    after [k] trials of the loop their sum is [k]; at the end of the
    simulation their sum is [num_pruebas], and the two empirical
    probabilities of the report sum to 1 as exact rationals. *)
Theorem C9_aggregation {G : Generator}
  (seed : Z) (p : Q) (num : Z) (s : Globals G) :
  (0 < num)%Z ->
  (forall s' : Globals G,
     (exitos (paso p s') = exitos s' + 1 /\ fracasos (paso p s') = fracasos s')%Z
     \/ (exitos (paso p s') = exitos s' /\ fracasos (paso p s') = fracasos s' + 1)%Z)
  /\ (forall k : nat,
        let sk := bucle k p (mkGlobals (default_rng seed) 0 0 0) in
        (exitos sk + fracasos sk = Z.of_nat k)%Z)
  /\ (exitos (simulacion seed p num s) + fracasos (simulacion seed p num s)
      = num)%Z
  /\ exists r, resultados num (simulacion seed p num s) = inr r
       /\ prob_exito_simulada r + prob_fallo_simulada r == 1.
Proof.
  intros Hnum.
  assert (Hsum : (exitos (simulacion seed p num s)
                  + fracasos (simulacion seed p num s) = num)%Z).
  { rewrite simulacion_eq, bucle_counts.
    cbn [exitos fracasos]. rewrite Z2Nat.id; lia. }
  split.
  { intros s'. destruct (paso_exactly_one p s') as [(He & Hf & _)|(He & Hf & _)];
      [left|right]; split; assumption. }
  split.
  { intros k. cbv zeta. rewrite bucle_counts. cbn [exitos fracasos]. lia. }
  split; [exact Hsum|].
  rewrite resultados_nonzero by lia.
  eexists; split; [reflexivity|].
  cbn [prob_exito_simulada prob_fallo_simulada].
  assert (Hnz : ~ inject_Z num == 0) by (apply inject_Z_nonzero; lia).
  transitivity ((inject_Z (exitos (simulacion seed p num s))
                 + inject_Z (fracasos (simulacion seed p num s)))
                / inject_Z num).
  { field; exact Hnz. }
  rewrite <- inject_Z_plus, Hsum. field; exact Hnz.
Qed.

Lemma C9_witness :
  (0 < 20)%Z /\
  (forall s' : Globals LcgGenerator,
     (exitos (paso (6 # 10) s') = exitos s' + 1
      /\ fracasos (paso (6 # 10) s') = fracasos s')%Z
     \/ (exitos (paso (6 # 10) s') = exitos s'
         /\ fracasos (paso (6 # 10) s') = fracasos s' + 1)%Z)
  /\ (forall k : nat,
        let sk := bucle k (6 # 10) (mkGlobals (default_rng 123) 0 0 0) in
        (exitos sk + fracasos sk = Z.of_nat k)%Z)
  /\ (exitos (simulacion 123 (6 # 10) 20 estado_previo)
      + fracasos (simulacion 123 (6 # 10) 20 estado_previo) = 20)%Z
  /\ exists r, resultados 20 (simulacion 123 (6 # 10) 20 estado_previo) = inr r
       /\ prob_exito_simulada r + prob_fallo_simulada r == 1.
Proof.
  split; [lia|].
  apply (C9_aggregation 123 (6 # 10) 20 estado_previo); lia.
Defined.

Example C9_run :
  let s := simulacion 123 (6 # 10) 20 estado_previo in
  (exitos s, fracasos s, total_intentos s) = (19, 1, 32)%Z.
Proof. vm_compute. reflexivity. Qed.




(** * Further properties of the cell *)

(** ** More on the simulation loop *)

Section LoopInvariants.

Context {G : Generator}.

Lemma bucle_add (j k : nat) (p : Q) (s : Globals G) :
  bucle (j + k) p s = bucle k p (bucle j p s).
Proof.
  revert s. induction j as [|j IH]; intros s; [reflexivity|].
  cbn [Nat.add bucle]. apply IH.
Qed.

(** One trial draws as many times as it adds to [total_intentos]. *)
Lemma paso_draws (p : Q) (s : Globals G) :
  rng (paso p s)
  = advance (Z.to_nat (total_intentos (paso p s) - total_intentos s)) (rng s).
Proof.
  rewrite paso_unfold. cbv zeta.
  destruct (Qltb (draw 0 (rng s)) p);
    [|destruct (Qltb (draw 1 (rng s)) p);
      [|destruct (Qltb (draw 2 (rng s)) p)]];
    cbn [rng total_intentos];
    match goal with
    | |- context [Z.to_nat (?t + ?c - ?t)] =>
        replace (t + c - t)%Z with c by lia
    end; reflexivity.
Qed.

Lemma bucle_invariant (k : nat) (p : Q) (s : Globals G) :
  let s' := bucle k p s in
  (exitos s <= exitos s'
   /\ fracasos s <= fracasos s'
   /\ (exitos s' - exitos s) + 3 * (fracasos s' - fracasos s)
      <= total_intentos s' - total_intentos s
   /\ total_intentos s' - total_intentos s
      <= 3 * (exitos s' - exitos s) + 3 * (fracasos s' - fracasos s))%Z
  /\ rng s' = advance (Z.to_nat (total_intentos s' - total_intentos s)) (rng s).
Proof.
  cbv zeta. induction k as [|k IH].
  - cbn [bucle]. split; [lia|]. now rewrite Z.sub_diag.
  - rewrite bucle_S. destruct IH as [IH Hrng].
    pose proof (paso_draws p (bucle k p s)) as Hd.
    destruct (paso_exactly_one p (bucle k p s))
      as [(He & Hf & Ht)|(He & Hf & Ht)].
    + split; [lia|]. rewrite Hd, Hrng, <- advance_add. f_equal. lia.
    + split; [lia|]. rewrite Hd, Hrng, <- advance_add. f_equal. lia.
Qed.

Lemma simulacion_counts (seed : Z) (p : Q) (num : Z) (s : Globals G) :
  (exitos (simulacion seed p num s) + fracasos (simulacion seed p num s)
   = Z.max 0 num)%Z.
Proof.
  rewrite simulacion_eq, bucle_counts. cbn [exitos fracasos]. lia.
Qed.

Lemma ratio_bounds (a n lo hi : Z) :
  (0 < n)%Z -> (lo * n <= a)%Z -> (a <= hi * n)%Z ->
  inject_Z lo <= inject_Z a / inject_Z n
  /\ inject_Z a / inject_Z n <= inject_Z hi.
Proof.
  intros Hn Hlo Hhi.
  assert (Hn' : 0 < inject_Z n) by (rewrite (Zlt_Qlt 0 n) in Hn; exact Hn).
  split.
  - apply Qle_shift_div_l; [exact Hn'|].
    rewrite <- inject_Z_mult, <- Zle_Qle. exact Hlo.
  - apply Qle_shift_div_r; [exact Hn'|].
    rewrite <- inject_Z_mult, <- Zle_Qle. exact Hhi.
Qed.

Lemma paso_p_ge_one (p : Q) (s : Globals G) :
  1 <= p ->
  paso p s = mkGlobals (advance 1 (rng s)) (total_intentos s + 1)
                       (exitos s + 1) (fracasos s).
Proof.
  intros Hp. rewrite paso_unfold. cbv zeta.
  destruct (draw_range 0 (rng s)) as [_ Hlt].
  assert (H : Qltb (draw 0 (rng s)) p = true)
    by (apply Qltb_lt; eapply Qlt_le_trans; eassumption).
  now rewrite H.
Qed.

Lemma bucle_p_ge_one (k : nat) (p : Q) (s : Globals G) :
  1 <= p ->
  bucle k p s = mkGlobals (advance k (rng s)) (total_intentos s + Z.of_nat k)
                          (exitos s + Z.of_nat k) (fracasos s).
Proof.
  intros Hp. induction k as [|k IH].
  - destruct s; cbn. f_equal; lia.
  - rewrite bucle_S, IH, (paso_p_ge_one _ _ Hp).
    cbn [rng total_intentos exitos fracasos].
    rewrite <- advance_S. f_equal; lia.
Qed.

End LoopInvariants.

Lemma cube_unfold (x : Q) : x ^ 3 == x * (x * x).
Proof. ring. Qed.

Lemma square_unfold (x : Q) : x ^ 2 == x * x.
Proof. ring. Qed.

(** ** Properties of the simulation *)

(** X1. The simulation draws from the generator exactly as many times as
    it counts attempts: at the end the generator is the seeded one advanced
    by [total_intentos] draws, and that number lies between the number of
    trials and three times the number of trials. *)
Theorem X1_draws_equal_attempts {G : Generator}
  (seed : Z) (p : Q) (num : Z) (s : Globals G) :
  let s' := simulacion seed p num s in
  rng s' = advance (Z.to_nat (total_intentos s')) (default_rng seed)
  /\ (Z.max 0 num <= total_intentos s' <= 3 * Z.max 0 num)%Z.
Proof.
  cbv zeta. rewrite simulacion_eq.
  set (s0 := mkGlobals (default_rng seed) 0 0 0).
  destruct (bucle_invariant (Z.to_nat num) p s0) as [Hb Hrng].
  pose proof (bucle_counts (Z.to_nat num) p s0) as Hc.
  cbn [s0 exitos fracasos total_intentos rng] in Hb, Hrng, Hc.
  rewrite Z.sub_0_r in Hrng. split; [exact Hrng|]. lia.
Qed.

(** X2. At the end of the simulation the counters are non-negative and
    [exitos + 3 * fracasos <= total_intentos <= 3 * (exitos + fracasos)]:
    a success costs between one and three attempts, a failure exactly
    three. *)
Theorem X2_counter_bounds {G : Generator}
  (seed : Z) (p : Q) (num : Z) (s : Globals G) :
  let s' := simulacion seed p num s in
  (0 <= exitos s' /\ 0 <= fracasos s'
   /\ exitos s' + 3 * fracasos s' <= total_intentos s'
   /\ total_intentos s' <= 3 * exitos s' + 3 * fracasos s')%Z.
Proof.
  cbv zeta. rewrite simulacion_eq.
  set (s0 := mkGlobals (default_rng seed) 0 0 0).
  destruct (bucle_invariant (Z.to_nat num) p s0) as [Hb _].
  cbn [s0 exitos fracasos total_intentos rng] in Hb. lia.
Qed.

(** X3. For [num_pruebas > 0] the report is well defined and its three
    quotients are in range: both empirical probabilities lie in [0, 1] and
    the mean number of attempts lies in [1, 3], for every [p_exito]. *)
Theorem X3_report_ranges {G : Generator}
  (seed : Z) (p : Q) (num : Z) (s : Globals G) :
  (0 < num)%Z ->
  exists r, resultados num (simulacion seed p num s) = inr r
    /\ 0 <= prob_exito_simulada r /\ prob_exito_simulada r <= 1
    /\ 0 <= prob_fallo_simulada r /\ prob_fallo_simulada r <= 1
    /\ 1 <= intentos_promedio r /\ intentos_promedio r <= 3.
Proof.
  intros Hnum. rewrite resultados_nonzero by lia.
  eexists; split; [reflexivity|].
  cbn [prob_exito_simulada prob_fallo_simulada intentos_promedio].
  pose proof (simulacion_counts seed p num s) as Hsum.
  revert Hsum. rewrite simulacion_eq.
  set (s0 := mkGlobals (default_rng seed) 0 0 0).
  destruct (bucle_invariant (Z.to_nat num) p s0) as [Hb _].
  cbn [s0 exitos fracasos total_intentos rng] in Hb. intros Hsum.
  destruct (ratio_bounds (exitos (bucle (Z.to_nat num) p s0)) num 0 1)
    as [H1 H2]; [lia..|].
  destruct (ratio_bounds (fracasos (bucle (Z.to_nat num) p s0)) num 0 1)
    as [H3 H4]; [lia..|].
  destruct (ratio_bounds (total_intentos (bucle (Z.to_nat num) p s0)) num 1 3)
    as [H5 H6]; [lia..|].
  repeat (split; [assumption|]). assumption.
Qed.

Lemma X3_witness :
  (0 < 20)%Z /\
  exists r, resultados 20 (simulacion 123 (6 # 10) 20 estado_previo) = inr r
    /\ 0 <= prob_exito_simulada r /\ prob_exito_simulada r <= 1
    /\ 0 <= prob_fallo_simulada r /\ prob_fallo_simulada r <= 1
    /\ 1 <= intentos_promedio r /\ intentos_promedio r <= 3.
Proof.
  split; [lia|].
  apply (X3_report_ranges 123 (6 # 10) 20 estado_previo); lia.
Defined.

(** X4. The counters only grow along the loop: [k] further trials leave
    [exitos] and [fracasos] at least where they were and add between [k]
    and [3 * k] to [total_intentos]. *)
Theorem X4_counters_monotone {G : Generator}
  (j k : nat) (p : Q) (s : Globals G) :
  let sj := bucle j p s in
  let sjk := bucle (j + k) p s in
  (exitos sj <= exitos sjk
   /\ fracasos sj <= fracasos sjk
   /\ total_intentos sj + Z.of_nat k <= total_intentos sjk
   /\ total_intentos sjk <= total_intentos sj + 3 * Z.of_nat k)%Z.
Proof.
  cbv zeta. rewrite bucle_add.
  destruct (bucle_invariant k p (bucle j p s)) as [Hb _].
  pose proof (bucle_counts k p (bucle j p s)) as Hc. lia.
Qed.


(** X6. For every [p_exito >= 1] each trial succeeds at the first attempt
    after one draw, so the simulation ends with [exitos] and
    [total_intentos] equal to the number of trials and no failure. *)
Theorem X6_p_at_least_one {G : Generator}
  (seed : Z) (p : Q) (num : Z) (s : Globals G) :
  1 <= p ->
  (forall s' : Globals G,
     intento_usuario p s' = (1%Z, set_rng (advance 1 (rng s')) s'))
  /\ simulacion seed p num s
     = mkGlobals (advance (Z.to_nat num) (default_rng seed))
                 (Z.max 0 num) (Z.max 0 num) 0.
Proof.
  intros Hp. split.
  { intros s'. rewrite intento_usuario_unfold.
    destruct (draw_range 0 (rng s')) as [_ Hlt].
    assert (H : Qltb (draw 0 (rng s')) p = true)
      by (apply Qltb_lt; eapply Qlt_le_trans; eassumption).
    now rewrite H. }
  rewrite simulacion_eq, (bucle_p_ge_one _ _ _ Hp).
  cbn [rng total_intentos exitos fracasos].
  f_equal; lia.
Qed.

Lemma X6_witness :
  1 <= 15 # 10 /\
  (forall s' : Globals LcgGenerator,
     intento_usuario (15 # 10) s' = (1%Z, set_rng (advance 1 (rng s')) s'))
  /\ simulacion 123 (15 # 10) 4 estado_previo
     = mkGlobals (advance (Z.to_nat 4) (default_rng 123))
                 (Z.max 0 4) (Z.max 0 4) 0.
Proof.
  split; [discriminate|].
  apply (X6_p_at_least_one 123 (15 # 10) 4 estado_previo). discriminate.
Defined.

(** X12. Raising [prob_exito] never hurts a trial run on the same
    generator state: a trial that succeeds at attempt [r] under [p]
    succeeds at an attempt between 1 and [r] under any [p' >= p], and a
    trial that fails under [p'] fails under [p]. *)
Theorem X12_trial_monotone_in_p {G : Generator} (p p' : Q) (s : Globals G) :
  p <= p' ->
  let r := fst (intento_usuario p s) in
  let r' := fst (intento_usuario p' s) in
  ((0 < r)%Z -> (0 < r' <= r)%Z) /\ (r' = 0%Z -> r = 0%Z).
Proof.
  intros Hpp. cbv zeta.
  assert (Hmono : forall u, Qltb u p = true -> Qltb u p' = true).
  { intros u Hu. apply Qltb_lt. apply Qltb_lt in Hu.
    eapply Qlt_le_trans; eassumption. }
  rewrite !intento_usuario_unfold.
  destruct (Qltb (draw 0 (rng s)) p) eqn:E0;
    destruct (Qltb (draw 0 (rng s)) p') eqn:E0';
    destruct (Qltb (draw 1 (rng s)) p) eqn:E1;
    destruct (Qltb (draw 1 (rng s)) p') eqn:E1';
    destruct (Qltb (draw 2 (rng s)) p) eqn:E2;
    destruct (Qltb (draw 2 (rng s)) p') eqn:E2';
    cbn [fst]; try lia; exfalso;
    repeat match goal with
           | E : Qltb _ p = true |- _ => apply Hmono in E
           end; congruence.
Qed.

Lemma X12_witness :
  5 # 10 <= 7 # 10 /\
  let s := mkGlobals (G := LcgGenerator)
             (advance (G := LcgGenerator) 1 (default_rng 123)) 0 0 0 in
  let r := fst (intento_usuario (5 # 10) s) in
  let r' := fst (intento_usuario (7 # 10) s) in
  ((0 < r)%Z -> (0 < r' <= r)%Z) /\ (r' = 0%Z -> r = 0%Z).
Proof.
  split; [discriminate|].
  apply (X12_trial_monotone_in_p (5 # 10) (7 # 10)
           (mkGlobals (G := LcgGenerator)
              (advance (G := LcgGenerator) 1 (default_rng 123)) 0 0 0)).
  discriminate.
Defined.

Example X12_run :
  let s := mkGlobals (G := LcgGenerator)
             (advance (G := LcgGenerator) 1 (default_rng 123)) 0 0 0 in
  fst (intento_usuario (5 # 10) s) = 3%Z
  /\ fst (intento_usuario (7 # 10) s) = 1%Z.
Proof. split; reflexivity. Qed.

(** X13. For a negative [num_pruebas] the loop runs no trial and the cell
    raises nothing: the counters stay at 0 and the report shows 0 for both
    empirical probabilities and for the mean, so that the two
    probabilities do not sum to 1. *)
Theorem X13_negative_trials {G : Generator}
  (seed : Z) (p : Q) (num : Z) (s : Globals G) :
  (num < 0)%Z ->
  exists t r,
    celda seed p num s = inr (t, r, mkGlobals (default_rng seed) 0 0 0)
    /\ prob_exito_simulada r == 0
    /\ prob_fallo_simulada r == 0
    /\ intentos_promedio r == 0
    /\ ~ prob_exito_simulada r + prob_fallo_simulada r == 1.
Proof.
  intros Hnum.
  assert (Hsim : simulacion seed p num s = mkGlobals (default_rng seed) 0 0 0).
  { rewrite simulacion_eq.
    replace (Z.to_nat num) with 0%nat by lia. reflexivity. }
  destruct (celda_nonzero seed p num s ltac:(lia)) as (t & r & Hc & _ & Hr).
  rewrite Hsim in Hc, Hr. rewrite resultados_nonzero in Hr by lia.
  injection Hr as <-. exists t. eexists. split; [exact Hc|].
  cbn [exitos fracasos total_intentos
       prob_exito_simulada prob_fallo_simulada intentos_promedio].
  assert (Hz : inject_Z 0 / inject_Z num == 0).
  { unfold Qdiv. change (inject_Z 0) with 0. apply Qmult_0_l. }
  rewrite Hz. split; [reflexivity|]. split; [reflexivity|].
  split; [reflexivity|]. discriminate.
Qed.

Lemma X13_witness :
  (-5 < 0)%Z /\
  exists t r,
    celda 123 (6 # 10) (-5) estado_previo
    = inr (t, r, mkGlobals (default_rng 123) 0 0 0)
    /\ prob_exito_simulada r == 0
    /\ prob_fallo_simulada r == 0
    /\ intentos_promedio r == 0
    /\ ~ prob_exito_simulada r + prob_fallo_simulada r == 1.
Proof.
  split; [lia|].
  apply (X13_negative_trials 123 (6 # 10) (-5) estado_previo). lia.
Defined.

(** ** Properties of the analytic computation *)

(** X7. The fundamental matrix computed by the code is, entry by entry,
    [N[i][j] = p_fallo^(j-i)] on and above the diagonal and 0 below it,
    for every [p_exito]. *)
Theorem X7_fundamental_matrix (p : Q) :
  exists Nm, N p = inr Nm
    /\ forall i j, (i < 3)%nat -> (j < 3)%nat ->
         Np.entry Nm i j
         == if (i <=? j)%nat then p_fallo p ^ Z.of_nat (j - i) else 0.
Proof.
  rewrite N_value. eexists; split; [reflexivity|].
  intros i j Hi Hj.
  pose proof (det_I_minus_Q p) as Hd. revert Hd.
  destruct i as [|[|[|i]]]; [| | |lia];
    (destruct j as [|[|[|j]]]; [| | |lia]);
    np_eval; intros Hd; field;
    intros H0; rewrite Hd in H0; discriminate H0.
Qed.

(** X8. In exact arithmetic, for [p_exito] in [0, 1], every row of
    [absorcion = N @ R], not only row 0, is a pair that sums to 1: started
    from the transient state [i] the chain succeeds with probability
    [1 - p_fallo^(3-i)] and fails with probability [p_fallo^(3-i)]. *)
Theorem X8_absorption_rows (p : Q) (i : nat) :
  0 <= p -> p <= 1 -> (i < 3)%nat ->
  exists Nm a b,
    N p = inr Nm
    /\ Np.getrow (Np.matmul Nm (R p)) i = inr [a; b]
    /\ a == 1 - p_fallo p ^ Z.of_nat (3 - i)
    /\ b == p_fallo p ^ Z.of_nat (3 - i)
    /\ a + b == 1.
Proof.
  intros _ _ Hi. rewrite N_value.
  pose proof (det_I_minus_Q p) as Hd. revert Hd.
  destruct i as [|[|[|i]]]; [| | |lia];
    np_eval; intros Hd;
    (do 3 eexists; split; [reflexivity|]; split; [reflexivity|]);
    (split; [|split]); field;
    intros H0; rewrite Hd in H0; discriminate H0.
Qed.

Lemma X8_witness :
  0 <= 6 # 10 /\ 6 # 10 <= 1 /\ (1 < 3)%nat /\
  exists Nm a b,
    N (6 # 10) = inr Nm
    /\ Np.getrow (Np.matmul Nm (R (6 # 10))) 1 = inr [a; b]
    /\ a == 1 - p_fallo (6 # 10) ^ Z.of_nat (3 - 1)
    /\ b == p_fallo (6 # 10) ^ Z.of_nat (3 - 1)
    /\ a + b == 1.
Proof.
  split; [discriminate|]. split; [discriminate|]. split; [lia|].
  apply (X8_absorption_rows (6 # 10) 1); [discriminate|discriminate|lia].
Defined.

(** X9. For [p_exito] in [0, 1] the analytic results are in range: both
    absorption probabilities lie in [0, 1] and the expected number of
    attempts lies in [1, 3]. *)
Theorem X9_analytic_ranges (p : Q) :
  0 <= p -> p <= 1 ->
  exists t, analisis p = inr t
    /\ 0 <= prob_exito_teorica t /\ prob_exito_teorica t <= 1
    /\ 0 <= prob_fallo_teorica t /\ prob_fallo_teorica t <= 1
    /\ 1 <= intentos_teoricos t /\ intentos_teoricos t <= 3.
Proof.
  intros H0 H1.
  destruct (analisis_closed_form p) as (Nm & t & _ & Ht & _ & _ & He & Hf & Hi).
  exists t. split; [exact Ht|].
  rewrite He, Hf, Hi, cube_unfold, square_unfold.
  assert (Hq0 : 0 <= 1 - p) by lra.
  assert (Hq1 : 1 - p <= 1) by lra.
  assert (Hqq0 : 0 <= (1 - p) * (1 - p)) by nra.
  assert (Hqq1 : (1 - p) * (1 - p) <= 1) by nra.
  repeat split; nra.
Qed.

Lemma X9_witness :
  0 <= 6 # 10 /\ 6 # 10 <= 1 /\
  exists t, analisis (6 # 10) = inr t
    /\ 0 <= prob_exito_teorica t /\ prob_exito_teorica t <= 1
    /\ 0 <= prob_fallo_teorica t /\ prob_fallo_teorica t <= 1
    /\ 1 <= intentos_teoricos t /\ intentos_teoricos t <= 3.
Proof.
  split; [discriminate|]. split; [discriminate|].
  apply (X9_analytic_ranges (6 # 10)); discriminate.
Defined.

(** X10. In exact arithmetic, for [p_exito] in [0, 1], the three
    analytic results are tied together: the expected number of attempts
    times [p_exito] is the success probability, and the failure
    probability is its complement. *)
Theorem X10_attempts_times_p (p : Q) :
  0 <= p -> p <= 1 ->
  exists t, analisis p = inr t
    /\ p * intentos_teoricos t == prob_exito_teorica t
    /\ prob_fallo_teorica t == 1 - p * intentos_teoricos t.
Proof.
  intros _ _.
  destruct (analisis_closed_form p) as (Nm & t & _ & Ht & _ & _ & He & Hf & Hi).
  exists t. split; [exact Ht|]. rewrite He, Hf, Hi. split; ring.
Qed.

Lemma X10_witness :
  0 <= 6 # 10 /\ 6 # 10 <= 1 /\
  exists t, analisis (6 # 10) = inr t
    /\ (6 # 10) * intentos_teoricos t == prob_exito_teorica t
    /\ prob_fallo_teorica t == 1 - (6 # 10) * intentos_teoricos t.
Proof.
  split; [discriminate|]. split; [discriminate|].
  apply (X10_attempts_times_p (6 # 10)); discriminate.
Defined.



